(** * OAuthTokenCache: the token client over an explicit world

    A shallow embedding of [oauth_token_cache/token_client.py].  The class
    [TokenClient] talks to two collaborators, the token endpoint (through
    [requests]) and the cache (through a [redis] client).  Both are kept in
    an explicit [World] that every method threads through a small
    state-and-exception monad, so that what a method returns, what it raises
    and what it leaves behind in the cache can all be stated.

    Scope of the model:
    - strings are sequences of 8-bit characters; only characters below 128
      carry a meaning as digit or white space;
    - JSON numbers with a fraction are not represented, and integers have
      no bound on their size or on the number of their digits;
    - the cache holds hashes only (the one kind of value this client writes),
      and the redis client is one that hands text back as [str]. *)

From Stdlib Require Import ZArith Ascii String DecimalString.
From Stdlib Require DecimalPos DecimalZ.
From stdpp Require Import base option gmap strings list fin_maps.

Local Open Scope string_scope.
Local Open Scope Z_scope.

Set Warnings "-register-all".

(* ===================================================================== *)
(** ** Python values *)
(* ===================================================================== *)

(** The values a decoded JSON document is made of, which are also the
    values a [Token] attribute can hold (Python checks no types). *)
Inductive pyval : Type :=
| PNone
| PBool (b : bool)
| PInt (z : Z)
| PStr (s : string)
| PList (l : list pyval)
| PDict (d : list (string * pyval)).

(** ** [str] and [int] on integers *)

(** [str(n)] for an [int]: decimal digits, with a leading minus sign for a
    negative number. *)
Definition py_str_of_int (z : Z) : string :=
  NilZero.string_of_int (Z.to_int z).

(** White space as [int] understands it in a [str] (code points below 128):
    tab, line feed, vertical tab, form feed, carriage return, the four
    separators 28 to 31, and the space. *)
Definition is_space (a : ascii) : bool :=
  let n := N_of_ascii a in
  (((9 <=? n) && (n <=? 13)) || ((28 <=? n) && (n <=? 32)))%N.

Definition is_digit (a : ascii) : bool :=
  let n := N_of_ascii a in ((48 <=? n) && (n <=? 57))%N.

Definition digit_value (a : ascii) : Z := Z.of_N (N_of_ascii a) - 48.

Fixpoint lstrip (s : string) : string :=
  match s with
  | String a s' => if is_space a then lstrip s' else s
  | EmptyString => EmptyString
  end.

Fixpoint all_space (s : string) : bool :=
  match s with
  | String a s' => is_space a && all_space s'
  | EmptyString => true
  end.

(** The digit loop of [int]: digits, with single underscores allowed between
    them.  [prev_us] says that the previous character was an underscore.
    The loop stops at the first character that is neither; a doubled or a
    trailing underscore is an error. *)
Fixpoint scan_digits (s : string) (prev_us : bool) (acc : Z) : option (Z * string) :=
  match s with
  | EmptyString => if prev_us then None else Some (acc, EmptyString)
  | String a s' =>
      if Ascii.eqb a "_" then
        if prev_us then None else scan_digits s' true acc
      else if is_digit a then scan_digits s' false (10 * acc + digit_value a)
      else if prev_us then None else Some (acc, s)
  end.

(** [int(s)] for a [str] in base 10: leading white space, an optional sign,
    the digits (which may not start with an underscore), trailing white
    space, and nothing else.  [None] stands for [ValueError]. *)
Definition py_int_of_str (s : string) : option Z :=
  let s := lstrip s in
  let '(negative, s) :=
    match s with
    | String a s' =>
        if Ascii.eqb a "-" then (true, s')
        else if Ascii.eqb a "+" then (false, s')
        else (false, s)
    | EmptyString => (false, s)
    end in
  match s with
  | EmptyString => None
  | String a _ =>
      if is_digit a then
        match scan_digits s false 0 with
        | Some (n, rest) =>
            if all_space rest then Some (if negative then - n else n) else None
        | None => None
        end
      else None
  end.

(** [int(v)] for an arbitrary value; [None] stands for the [TypeError] or
    [ValueError] that [int] raises on a value it cannot convert. *)
Definition py_int (v : pyval) : option Z :=
  match v with
  | PInt z => Some z
  | PBool b => Some (Z.b2z b)
  | PStr s => py_int_of_str s
  | PNone | PList _ | PDict _ => None
  end.

(* ===================================================================== *)
(** ** The collaborators' data *)
(* ===================================================================== *)

(** What [requests.post] is called with, and the response object it hands
    back.  [json_value] is what [response.json()] decodes [text] to, [None]
    when the body is not JSON. *)
Module requests.
Record Request := {
  url : string;
  json : gmap string pyval;
  allow_redirects : bool;
  timeout : Z
}.

Record Response := {
  status_code : Z;
  text : string;
  json_value : option pyval
}.

(** The ways a request can fail before any response exists. *)
Inductive transport_error := RequestTimeout | RequestConnectionError.
End requests.

(** The commands this client sends to the cache, and the units in which
    they travel: one [HGETALL], or one pipeline executed as a transaction. *)
Module redis.
Inductive command :=
| HMSET (name : string) (mapping : gmap string pyval)
| EXPIRE (name : string) (time : Z).

Inductive round_trip :=
| Hgetall (name : string)
| Transaction (commands : list command).

(** A stored hash: its fields, and the instant at which it expires. *)
Record entry := {
  fields : gmap string string;
  deadline : option Z
}.
End redis.

Inductive exn :=
| RequestException (e : requests.transport_error)
| HTTPError (response : requests.Response)
| JSONDecodeError
| KeyError (key : string)
| TypeError
| ValueError
| DataError
| RedisConnectionError.

(** The world outside the client: the clock (in seconds), the cache and
    whether it can be reached, the token endpoint as a function from the
    request to what comes back, and the traffic seen so far. *)
Record World := {
  now : Z;
  store : gmap string redis.entry;
  redis_up : bool;
  redis_log : list redis.round_trip;
  endpoint : requests.Request -> requests.transport_error + requests.Response;
  http_log : list requests.Request
}.

(* ===================================================================== *)
(** ** The monad of the methods: state and exceptions *)
(* ===================================================================== *)

Inductive outcome (A : Type) :=
| Return (a : A)
| Raise (e : exn).
Arguments Return {A} a.
Arguments Raise {A} e.

Definition M (A : Type) : Type := World -> outcome A * World.

Definition ret {A} (a : A) : M A := fun w => (Return a, w).
Definition raise {A} (e : exn) : M A := fun w => (Raise e, w).
Definition bind {A B} (c : M A) (k : A -> M B) : M B :=
  fun w => match c w with
           | (Return a, w') => k a w'
           | (Raise e, w') => (Raise e, w')
           end.

Notation "x <- c ;; k" := (bind c (fun x => k))
  (at level 100, c at next level, right associativity).

(** Subscription [v[key]] with a string key. *)
Fixpoint assoc (d : list (string * pyval)) (key : string) : option pyval :=
  match d with
  | [] => None
  | (k, v) :: d' => if String.eqb k key then Some v else assoc d' key
  end.

Definition getitem (v : pyval) (key : string) : M pyval :=
  match v with
  | PDict d =>
      match assoc d key with
      | Some x => ret x
      | None => raise (KeyError key)
      end
  | _ => raise TypeError
  end.

Definition dict_getitem (values : gmap string string) (key : string) : M string :=
  match values !! key with
  | Some x => ret x
  | None => raise (KeyError key)
  end.

(* ===================================================================== *)
(** ** The token endpoint, through [requests] *)
(* ===================================================================== *)

Definition log_request (rq : requests.Request) (w : World) : World :=
  {| now := now w; store := store w; redis_up := redis_up w;
     redis_log := redis_log w; endpoint := endpoint w;
     http_log := http_log w ++ [rq] |}.

(** [requests.post(url, json=..., allow_redirects=..., timeout=...)]: one
    request goes out; what comes back, or the failure to get anything back,
    is the endpoint's doing.  A redirect that is not followed is handed to
    the caller like any other response. *)
Definition requests_post (url : string) (json : gmap string pyval)
    (allow_redirects : bool) (timeout : Z) : M requests.Response :=
  fun w =>
    let rq := {| requests.url := url; requests.json := json;
                 requests.allow_redirects := allow_redirects;
                 requests.timeout := timeout |} in
    match endpoint w rq with
    | inl e => (Raise (RequestException e), log_request rq w)
    | inr r => (Return r, log_request rq w)
    end.

(** [Response.raise_for_status()]: [HTTPError], carrying the response, for a
    status from 400 to 599, and nothing for any other status. *)
Definition raise_for_status (r : requests.Response) : M unit :=
  if (400 <=? requests.status_code r) && (requests.status_code r <? 600)
  then raise (HTTPError r)
  else ret tt.

(** [Response.json()]. *)
Definition response_json (r : requests.Response) : M pyval :=
  match requests.json_value r with
  | Some v => ret v
  | None => raise JSONDecodeError
  end.

(* ===================================================================== *)
(** ** The cache, through the redis client *)
(* ===================================================================== *)

(** A hash is there as long as the clock has not reached its deadline.
    One that is past it is gone for every command: reads find nothing and
    writes start afresh.  (A timeout of zero or less therefore removes the
    key at once.) *)
Definition live (t : Z) (e : redis.entry) : bool :=
  match redis.deadline e with
  | Some d => t <? d
  | None => true
  end.

Definition lookup_live (t : Z) (st : gmap string redis.entry) (name : string)
    : option redis.entry :=
  match st !! name with
  | Some e => if live t e then Some e else None
  | None => None
  end.

(** What [HGETALL name] answers at time [t]: the fields, or the empty
    mapping when there is no such key. *)
Definition read_hash (t : Z) (st : gmap string redis.entry) (name : string)
    : gmap string string :=
  match lookup_live t st name with
  | Some e => redis.fields e
  | None => ∅
  end.

(** How the client turns a value into the text it sends: [str] as it is,
    [int] in decimal, anything else is refused with [DataError]. *)
Definition redis_encode (v : pyval) : option string :=
  match v with
  | PStr s => Some s
  | PInt z => Some (py_str_of_int z)
  | PNone | PBool _ | PList _ | PDict _ => None
  end.

Definition encodable (c : redis.command) : bool :=
  match c with
  | redis.HMSET _ mapping =>
      bool_decide (map_Forall (fun _ v => is_Some (redis_encode v)) mapping)
  | redis.EXPIRE _ _ => true
  end.

(** The effect of one command on the keyspace at time [t].  [HMSET] merges
    into a hash that is there and keeps its deadline, or creates one without
    a deadline; [EXPIRE] sets the deadline of a hash that is there. *)
Definition apply_command (t : Z) (st : gmap string redis.entry)
    (c : redis.command) : gmap string redis.entry :=
  match c with
  | redis.HMSET name mapping =>
      let new := omap redis_encode mapping in
      match lookup_live t st name with
      | Some e =>
          <[name := {| redis.fields := new ∪ redis.fields e;
                       redis.deadline := redis.deadline e |}]> st
      | None =>
          <[name := {| redis.fields := new; redis.deadline := None |}]> st
      end
  | redis.EXPIRE name time =>
      match lookup_live t st name with
      | Some e =>
          <[name := {| redis.fields := redis.fields e;
                       redis.deadline := Some (t + time) |}]> st
      | None => st
      end
  end.

Definition log_round_trip (rt : redis.round_trip)
    (st : gmap string redis.entry) (w : World) : World :=
  {| now := now w; store := st; redis_up := redis_up w;
     redis_log := redis_log w ++ [rt]; endpoint := endpoint w;
     http_log := http_log w |}.

(** [redis_client.hgetall(name)]. *)
Definition redis_hgetall (name : string) : M (gmap string string) :=
  fun w =>
    if redis_up w
    then (Return (read_hash (now w) (store w) name),
          log_round_trip (redis.Hgetall name) (store w) w)
    else (Raise RedisConnectionError, w).

(** [redis_client.pipeline()] is an empty buffer of commands; [hmset] and
    [expire] on it only append; nothing is sent before [execute]. *)
Definition redis_pipeline : list redis.command := [].

Definition pipeline_hmset (pipeline : list redis.command) (name : string)
    (mapping : gmap string pyval) : list redis.command :=
  pipeline ++ [redis.HMSET name mapping].

Definition pipeline_expire (pipeline : list redis.command) (name : string)
    (time : Z) : list redis.command :=
  pipeline ++ [redis.EXPIRE name time].

(** [pipeline.execute()]: the buffered commands go out as one transaction
    and are applied one after the other with nothing in between.  When the
    cache cannot be reached, or a value cannot be encoded, nothing is sent. *)
Definition pipeline_execute (pipeline : list redis.command) : M unit :=
  fun w =>
    if redis_up w then
      if forallb encodable pipeline
      then (Return tt,
            log_round_trip (redis.Transaction pipeline)
              (foldl (apply_command (now w)) (store w) pipeline) w)
      else (Raise DataError, w)
    else (Raise RedisConnectionError, w).

(* ===================================================================== *)
(** ** [Token] *)
(* ===================================================================== *)

Module Token.
(** Modelled from the spec: the class [Token] of
    [oauth_token_cache/token.py], which the client imports and which is
    not among the sources.  A value object with four attributes; nothing
    is validated but [expires_in], which is an integer. *)
Record t := mk {
  access_token : pyval;
  expires_in : Z;
  token_type : pyval;
  audience : pyval
}.

(** Modelled from the spec: the constructor of [Token], which coerces
    [expires_in] to an integer and fails with [ValueError] when that
    cannot be done. *)
Definition init (access_token expires_in token_type audience : pyval) : M t :=
  match py_int expires_in with
  | Some z => ret (mk access_token z token_type audience)
  | None => raise ValueError
  end.

(** Modelled from the spec: [Token.asdict], the mapping of the four
    attributes under their names, [expires_in] as its decimal string. *)
Definition asdict (self : t) : gmap string pyval :=
  {[ "access_token" := access_token self;
     "expires_in" := PStr (py_str_of_int (expires_in self));
     "token_type" := token_type self;
     "audience" := audience self ]}.
End Token.

(* ===================================================================== *)
(** ** [TokenClient] *)
(* ===================================================================== *)

Module TokenClient.
(** The attributes [__init__] sets, typed as the class docstring types
    them.  The redis client is the cache of the [World]. *)
Record t := {
  client_id : string;
  client_secret : string;
  token_url : string;
  audience : string;
  timeout : Z
}.

(** [__init__]: [timeout] is read from the keyword arguments, 5 when it is
    not among them. *)
Definition init (client_id client_secret token_url audience : string)
    (kwargs : gmap string Z) : t :=
  {| client_id := client_id;
     client_secret := client_secret;
     token_url := token_url;
     audience := audience;
     timeout := default 5 (kwargs !! "timeout") |}.

(** The property [cache_key]. *)
Definition cache_key (self : t) : string :=
  "oauth_token_cache__" ++ client_id self ++ "_" ++ audience self.

(** [cache_token]: the token's mapping and its expiry are queued on one
    pipeline, the pipeline is executed, and the token is handed back. *)
Definition cache_token (self : t) (token : Token.t) : M Token.t :=
  let pipeline := redis_pipeline in
  let pipeline := pipeline_hmset pipeline (cache_key self) (Token.asdict token) in
  let pipeline := pipeline_expire pipeline (cache_key self) (Token.expires_in token) in
  _ <- pipeline_execute pipeline ;;
  ret token.

(** [cached_token]: [None] for an empty mapping; otherwise the arguments
    of [Token(...)] are evaluated from left to right, the second one being
    [int] of the value stored as [expires_in]. *)
Definition cached_token (self : t) : M (option Token.t) :=
  values <- redis_hgetall (cache_key self) ;;
  if decide (values = ∅) then ret None
  else
    access_token <- dict_getitem values "access_token" ;;
    expires_in <- dict_getitem values "expires_in" ;;
    expires_in <- match py_int_of_str expires_in with
                  | Some n => ret n
                  | None => raise ValueError
                  end ;;
    token_type <- dict_getitem values "token_type" ;;
    audience <- dict_getitem values "audience" ;;
    token <- Token.init (PStr access_token) (PInt expires_in)
                        (PStr token_type) (PStr audience) ;;
    ret (Some token).

(** The dictionary [fresh_token] builds for the body of its request. *)
Definition payload (self : t) : gmap string pyval :=
  {[ "grant_type" := PStr "client_credentials";
     "client_id" := PStr (client_id self);
     "client_secret" := PStr (client_secret self);
     "audience" := PStr (audience self) ]}.

(** [fresh_token]: post, check the status, decode, pick the three fields
    (in the order of the keyword arguments), build the token, cache it. *)
Definition fresh_token (self : t) : M Token.t :=
  let payload := payload self in
  response <- requests_post (token_url self) payload false (timeout self) ;;
  _ <- raise_for_status response ;;
  response <- response_json response ;;
  access_token <- getitem response "access_token" ;;
  expires_in <- getitem response "expires_in" ;;
  token_type <- getitem response "token_type" ;;
  token <- Token.init access_token expires_in token_type (PStr (audience self)) ;;
  cache_token self token.
End TokenClient.

(* ===================================================================== *)
(** ** Vocabulary of the statements *)
(* ===================================================================== *)

(** The request [fresh_token] passes to [requests.post]. *)
Definition post_of (self : TokenClient.t) : requests.Request :=
  {| requests.url := TokenClient.token_url self;
     requests.json := TokenClient.payload self;
     requests.allow_redirects := false;
     requests.timeout := TokenClient.timeout self |}.

(** The text the cache holds for a token whose attributes are strings. *)
Definition stored_fields (a : string) (e : Z) (ty aud : string) : gmap string string :=
  {[ "access_token" := a; "expires_in" := py_str_of_int e;
     "token_type" := ty; "audience" := aud ]}.


(* ===================================================================== *)
(** ** Concrete clients, responses and worlds *)
(* ===================================================================== *)

Module Sample.
Definition client : TokenClient.t :=
  TokenClient.init "client-1" "s3cret" "https://auth.example.org/oauth/token"
    "svcA" ∅.

Definition token : Token.t :=
  Token.mk (PStr "abc") 3600 (PStr "Bearer") (PStr "svcA").

(** A token that is already at the end of its life when it is issued. *)
Definition spent_token : Token.t :=
  Token.mk (PStr "abc") 0 (PStr "Bearer") (PStr "svcA").

Definition body : pyval :=
  PDict [("access_token", PStr "abc"); ("expires_in", PInt 3600);
         ("token_type", PStr "Bearer")].

Definition response (status : Z) : requests.Response :=
  {| requests.status_code := status;
     requests.text := "(token document)";
     requests.json_value := Some body |}.

(** An empty cache at second 1000, and an endpoint that answers every
    request with [r]. *)
Definition world (r : requests.Response) : World :=
  {| now := 1000; store := ∅; redis_up := true; redis_log := [];
     endpoint := fun _ => inr r; http_log := [] |}.

(** The same, with [values] stored under the client's key. *)
Definition world_holding (values : gmap string string) : World :=
  {| now := 1000;
     store := {[ TokenClient.cache_key client :=
                   {| redis.fields := values; redis.deadline := None |} ]};
     redis_up := true; redis_log := [];
     endpoint := fun _ => inr (response 200); http_log := [] |}.
End Sample.

(** Whether a string contains the character that [cache_key] puts between
    the client id and the audience. *)
Fixpoint has_underscore (s : string) : bool :=
  match s with
  | String a s' => Ascii.eqb a "_" || has_underscore s'
  | EmptyString => false
  end.

Module Collision.
(** Two clients that differ in both client id and audience. *)
Definition left : TokenClient.t :=
  TokenClient.init "a_b" "s3cret" "https://auth.example.org/oauth/token" "c" ∅.
Definition right : TokenClient.t :=
  TokenClient.init "a" "s3cret" "https://auth.example.org/oauth/token" "b_c" ∅.
End Collision.

(* ===================================================================== *)
(** ** Time passing *)
(* ===================================================================== *)


(** [w] with the cache out of reach. *)
Definition cache_down (w : World) : World :=
  {| now := now w; store := store w; redis_up := false;
     redis_log := redis_log w; endpoint := endpoint w;
     http_log := http_log w |}.

(** [w] with an endpoint that cannot be reached in time. *)
Definition endpoint_timing_out (w : World) : World :=
  {| now := now w; store := store w; redis_up := redis_up w;
     redis_log := redis_log w;
     endpoint := fun _ => inl requests.RequestTimeout;
     http_log := http_log w |}.

(* ===================================================================== *)
(** ** Proof steps that recur *)
(* ===================================================================== *)

(** Open up a method down to the primitives of the monad. *)
Ltac run_cached_token :=
  unfold TokenClient.cached_token, bind, redis_hgetall, dict_getitem,
    Token.init, ret, raise.

Ltac run_cache_token :=
  unfold TokenClient.cache_token, bind, pipeline_execute, redis_pipeline,
    pipeline_hmset, pipeline_expire, ret, raise.

Ltac run_fresh_token :=
  unfold TokenClient.fresh_token, bind, requests_post, raise_for_status,
    response_json, getitem, Token.init, ret, raise.


(* ===================================================================== *)
(** ** [int] undoes [str] *)
(* ===================================================================== *)

Example py_int_of_str_plain : py_int_of_str "3600" = Some 3600.
Proof. reflexivity. Qed.
Example py_int_of_str_padded : py_int_of_str "  -1_000 " = Some (-1000).
Proof. reflexivity. Qed.
Example py_int_of_str_word : py_int_of_str "soon" = None.
Proof. reflexivity. Qed.
Example py_int_of_str_empty : py_int_of_str "" = None.
Proof. reflexivity. Qed.
Example py_int_of_str_gap : py_int_of_str "- 5" = None.
Proof. reflexivity. Qed.
Example py_int_of_str_underscores : py_int_of_str "1__0" = None.
Proof. reflexivity. Qed.
Example py_str_of_int_neg : py_str_of_int (-42) = "-42".
Proof. reflexivity. Qed.
Example py_str_of_int_zero : py_str_of_int 0 = "0".
Proof. reflexivity. Qed.

Section IntStr.
Import Decimal.

Lemma scan_digits_uint_acc (d : uint) (acc : positive) :
  scan_digits (NilEmpty.string_of_uint d) false (Z.pos acc)
  = Some (Z.pos (Pos.of_uint_acc d acc), EmptyString).
Proof.
  revert acc.
  induction d as [|d IH|d IH|d IH|d IH|d IH|d IH|d IH|d IH|d IH|d IH];
    intros acc; [reflexivity | ..];
    cbn [NilEmpty.string_of_uint scan_digits];
    match goal with
    | |- context [Ascii.eqb ?a ?b] => change (Ascii.eqb a b) with false
    end;
    match goal with
    | |- context [is_digit ?a] => change (is_digit a) with true
    end;
    cbv iota;
    match goal with
    | |- context [digit_value ?a] =>
        let v := eval vm_compute in (digit_value a) in
        change (digit_value a) with v
    end;
    cbn [Pos.of_uint_acc];
    match goal with
    | |- scan_digits _ _ ?x = Some (Z.pos (Pos.of_uint_acc _ ?y), _) =>
        replace x with (Z.pos y) by lia
    end;
    apply IH.
Qed.

Lemma scan_digits_uint (d : uint) :
  scan_digits (NilEmpty.string_of_uint d) false 0
  = Some (Z.of_N (Pos.of_uint d), EmptyString).
Proof.
  induction d as [|d IH|d IH|d IH|d IH|d IH|d IH|d IH|d IH|d IH|d IH];
    [reflexivity | exact IH | ..];
    cbn [NilEmpty.string_of_uint scan_digits];
    match goal with
    | |- context [Ascii.eqb ?a ?b] => change (Ascii.eqb a b) with false
    end;
    match goal with
    | |- context [is_digit ?a] => change (is_digit a) with true
    end;
    cbv iota;
    match goal with
    | |- context [digit_value ?a] =>
        let v := eval vm_compute in (digit_value a) in
        change (digit_value a) with v
    end;
    cbn [Pos.of_uint Z.of_N];
    apply (scan_digits_uint_acc d).
Qed.
End IntStr.

Lemma string_of_uint_head (d : Decimal.uint) :
  d <> Decimal.Nil ->
  exists a s, NilEmpty.string_of_uint d = String a s /\ is_digit a = true
              /\ is_space a = false /\ Ascii.eqb a "-" = false /\ Ascii.eqb a "+" = false.
Proof.
  destruct d; [congruence | ..]; intros _; cbn [NilEmpty.string_of_uint];
    eexists _, _; (split; [reflexivity | repeat split; reflexivity]).
Qed.

Lemma py_int_of_digits (neg : bool) (p : positive) :
  py_int_of_str (let s := NilEmpty.string_of_uint (Pos.to_uint p) in
                 if neg then String "-" s else s)
  = Some (if neg then Z.neg p else Z.pos p).
Proof.
  destruct (string_of_uint_head (Pos.to_uint p) (DecimalPos.Unsigned.to_uint_nonnil p))
    as (a & s & Hs & Hd & Hsp & Hm & Hpl).
  pose proof (scan_digits_uint (Pos.to_uint p)) as Hscan.
  rewrite DecimalPos.Unsigned.of_to in Hscan. rewrite Hs in Hscan |- *.
  unfold py_int_of_str.
  destruct neg; cbn [lstrip].
  - change (is_space "-") with false. cbv iota.
    change (Ascii.eqb "-" "-") with true. cbv iota.
    rewrite Hd, Hscan. reflexivity.
  - rewrite Hsp, Hm, Hpl, Hd, Hscan. reflexivity.
Qed.

Lemma py_int_of_str_of_int (z : Z) : py_int_of_str (py_str_of_int z) = Some z.
Proof.
  destruct z as [|p|p]; [reflexivity | ..]; unfold py_str_of_int;
    cbn [Z.to_int NilZero.string_of_int]; unfold NilZero.string_of_uint;
    pose proof (DecimalPos.Unsigned.to_uint_nonnil p) as Hnil.
  - replace (match Pos.to_uint p with Decimal.Nil => "0" | _ => NilEmpty.string_of_uint (Pos.to_uint p) end)
      with (NilEmpty.string_of_uint (Pos.to_uint p)) by (destruct (Pos.to_uint p); congruence).
    apply (py_int_of_digits false).
  - replace (match Pos.to_uint p with Decimal.Nil => "0" | _ => NilEmpty.string_of_uint (Pos.to_uint p) end)
      with (NilEmpty.string_of_uint (Pos.to_uint p)) by (destruct (Pos.to_uint p); congruence).
    apply (py_int_of_digits true).
Qed.

(* ===================================================================== *)
(** ** What a write leaves in the cache *)
(* ===================================================================== *)

Lemma asdict_encoded a e ty aud :
  omap redis_encode (Token.asdict (Token.mk (PStr a) e (PStr ty) (PStr aud)))
  = stored_fields a e ty aud.
Proof.
  unfold Token.asdict, stored_fields;
    cbn [Token.access_token Token.expires_in Token.token_type Token.audience].
  rewrite !omap_insert_Some with (y := _) by reflexivity.
  by rewrite omap_singleton_Some with (y := aud).
Qed.

Lemma asdict_encodable name a e ty aud :
  encodable (redis.HMSET name (Token.asdict (Token.mk (PStr a) e (PStr ty) (PStr aud)))) = true.
Proof.
  cbn [encodable]. apply bool_decide_eq_true.
  unfold Token.asdict;
    cbn [Token.access_token Token.expires_in Token.token_type Token.audience].
  repeat (apply map_Forall_insert_2; [by eexists |]).
  apply map_Forall_empty.
Qed.

Lemma stored_fields_lookup a e ty aud :
  stored_fields a e ty aud !! "access_token" = Some a
  /\ stored_fields a e ty aud !! "expires_in" = Some (py_str_of_int e)
  /\ stored_fields a e ty aud !! "token_type" = Some ty
  /\ stored_fields a e ty aud !! "audience" = Some aud.
Proof. unfold stored_fields. repeat split; by simplify_map_eq. Qed.

(** The keyspace after [HMSET] then [EXPIRE] on one key. *)
Lemma apply_hmset_expire t st name mapping time :
  foldl (apply_command t) st [redis.HMSET name mapping; redis.EXPIRE name time]
  = <[name := {| redis.fields := omap redis_encode mapping ∪ read_hash t st name;
                 redis.deadline := Some (t + time) |}]> st.
Proof.
  cbn [foldl apply_command]. unfold read_hash.
  destruct (lookup_live t st name) as [e0|] eqn:Hl.
  - unfold lookup_live in *. rewrite lookup_insert_eq.
    destruct (st !! name) as [e1|]; [|done].
    destruct (live t e1) eqn:Hlive; simplify_eq.
    unfold live in *. cbn [redis.deadline]. rewrite Hlive.
    cbn [redis.fields]. by rewrite insert_insert_eq.
  - unfold lookup_live. rewrite lookup_insert_eq. cbn [live redis.deadline redis.fields].
    by rewrite insert_insert_eq, (right_id_L ∅ (∪)).
Qed.

Lemma read_hash_insert t st name fs d :
  read_hash t (<[name := {| redis.fields := fs; redis.deadline := Some d |}]> st) name
  = if t <? d then fs else ∅.
Proof.
  unfold read_hash, lookup_live. rewrite lookup_insert_eq.
  cbn [live redis.deadline]. by destruct (t <? d).
Qed.

Lemma cache_token_run self t w :
  redis_up w = true ->
  encodable (redis.HMSET (TokenClient.cache_key self) (Token.asdict t)) = true ->
  TokenClient.cache_token self t w
  = (Return t,
     log_round_trip
       (redis.Transaction
          [redis.HMSET (TokenClient.cache_key self) (Token.asdict t);
           redis.EXPIRE (TokenClient.cache_key self) (Token.expires_in t)])
       (<[TokenClient.cache_key self :=
            {| redis.fields := omap redis_encode (Token.asdict t)
                               ∪ read_hash (now w) (store w) (TokenClient.cache_key self);
               redis.deadline := Some (now w + Token.expires_in t) |}]> (store w))
       w).
Proof.
  intros Hup Henc.
  unfold TokenClient.cache_token, bind, pipeline_execute, redis_pipeline,
    pipeline_hmset, pipeline_expire.
  rewrite Hup. cbn [app forallb]. rewrite Henc. cbn [andb encodable].
  by rewrite apply_hmset_expire.
Qed.

(* ===================================================================== *)
(** ** [cached_token], case by case *)
(* ===================================================================== *)

Lemma cached_token_world self w :
  redis_up w = true ->
  snd (TokenClient.cached_token self w)
  = log_round_trip (redis.Hgetall (TokenClient.cache_key self)) (store w) w.
Proof.
  intros Hup. run_cached_token. rewrite Hup.
  repeat (case_decide || case_match); simplify_eq/=; reflexivity.
Qed.


Lemma cached_token_miss self w :
  redis_up w = true ->
  read_hash (now w) (store w) (TokenClient.cache_key self) = ∅ ->
  fst (TokenClient.cached_token self w) = Return None.
Proof.
  intros Hup Hempty. run_cached_token. rewrite Hup, Hempty.
  by rewrite decide_True.
Qed.

Lemma cached_token_hit self w a s e ty aud :
  redis_up w = true ->
  let values := read_hash (now w) (store w) (TokenClient.cache_key self) in
  values !! "access_token" = Some a ->
  values !! "expires_in" = Some s ->
  py_int_of_str s = Some e ->
  values !! "token_type" = Some ty ->
  values !! "audience" = Some aud ->
  fst (TokenClient.cached_token self w)
  = Return (Some (Token.mk (PStr a) e (PStr ty) (PStr aud))).
Proof.
  intros Hup values Ha Hs He Hty Haud. run_cached_token. rewrite Hup.
  fold values. rewrite decide_False by (intros Heq; by rewrite Heq in Ha).
  by rewrite Ha, Hs, He, Hty, Haud.
Qed.





(* ===================================================================== *)
(** ** Reading the cache *)
(* ===================================================================== *)

(** C1 (as amended).  For every token whose attributes are strings and whose
    [expires_in] is positive, [cache_token(t)] followed at once by
    [cached_token()] on the resulting cache returns a token equal to [t] in
    all four attributes, [expires_in] having gone through its decimal string
    and back. *)
Theorem cache_token_then_cached_token self a e ty aud w :
  redis_up w = true ->
  0 < e ->
  let t := Token.mk (PStr a) e (PStr ty) (PStr aud) in
  fst (TokenClient.cached_token self (snd (TokenClient.cache_token self t w)))
  = Return (Some t).
Proof.
  intros Hup He t.
  rewrite cache_token_run by (done || apply asdict_encodable).
  cbn [snd]. subst t. rewrite asdict_encoded. cbn [Token.expires_in].
  set (old := read_hash _ _ _).
  destruct (stored_fields_lookup a e ty aud) as (Ha & Hs & Hty & Haud).
  eapply cached_token_hit; cbn [log_round_trip redis_up now store];
    rewrite ?read_hash_insert;
    try (replace (now w <? now w + e) with true by (symmetry; apply Z.ltb_lt; lia));
    first [done | by apply lookup_union_Some_l | apply py_int_of_str_of_int].
Qed.

Lemma cache_token_then_cached_token_witness :
  redis_up (Sample.world (Sample.response 200)) = true
  /\ 0 < 3600
  /\ fst (TokenClient.cached_token Sample.client
            (snd (TokenClient.cache_token Sample.client Sample.token
                    (Sample.world (Sample.response 200)))))
     = Return (Some Sample.token).
Proof.
  split; [reflexivity | split; [lia |]].
  apply (cache_token_then_cached_token Sample.client "abc" 3600 "Bearer" "svcA"
           (Sample.world (Sample.response 200))); [reflexivity | lia].
Defined.

(** C1, as stated, fails for a token with [expires_in = 0]: it is a token of
    the data model (a non-negative lifetime), the cache is reachable, and
    the read that follows the write comes back empty-handed. *)
Lemma spent_token_is_not_read_back :
  let w := Sample.world (Sample.response 200) in
  let r := fst (TokenClient.cached_token Sample.client
                  (snd (TokenClient.cache_token Sample.client Sample.spent_token w))) in
  redis_up w = true
  /\ 0 <= Token.expires_in Sample.spent_token
  /\ fst (TokenClient.cache_token Sample.client Sample.spent_token w)
     = Return Sample.spent_token
  /\ r = Return None
  /\ r <> Return (Some Sample.spent_token).
Proof. vm_compute. repeat split; congruence. Qed.

(** C5.  When the key is absent, or what the cache holds under it reads as
    the empty mapping, [cached_token()] returns [None]; it raises nothing,
    and the only traffic is its one [HGETALL]: the keyspace is unchanged. *)
Theorem cached_token_miss_returns_none self w :
  redis_up w = true ->
  store w !! TokenClient.cache_key self = None
  \/ read_hash (now w) (store w) (TokenClient.cache_key self) = ∅ ->
  fst (TokenClient.cached_token self w) = Return None
  /\ store (snd (TokenClient.cached_token self w)) = store w
  /\ redis_log (snd (TokenClient.cached_token self w))
     = (redis_log w ++ [redis.Hgetall (TokenClient.cache_key self)])%list.
Proof.
  intros Hup Hmiss.
  assert (read_hash (now w) (store w) (TokenClient.cache_key self) = ∅) as Hempty.
  { destruct Hmiss as [Habsent | Hempty]; [| done].
    unfold read_hash, lookup_live. by rewrite Habsent. }
  split; [by apply cached_token_miss |].
  by rewrite cached_token_world.
Qed.

Lemma cached_token_miss_returns_none_witness :
  let w := Sample.world (Sample.response 200) in
  redis_up w = true
  /\ store w !! TokenClient.cache_key Sample.client = None
  /\ fst (TokenClient.cached_token Sample.client w) = Return None
  /\ store (snd (TokenClient.cached_token Sample.client w)) = store w.
Proof.
  intros w.
  destruct (cached_token_miss_returns_none Sample.client w eq_refl (or_introl eq_refl))
    as (Hnone & Hstore & _).
  split; [reflexivity | split; [reflexivity | split; [exact Hnone | exact Hstore]]].
Defined.







(* ===================================================================== *)
(** ** Writing the cache *)
(* ===================================================================== *)

(** [cache_token] leaves the world as it found it, or applies its batch. *)
Lemma cache_token_cases self t w :
  let key := TokenClient.cache_key self in
  let batch := [redis.HMSET key (Token.asdict t);
                redis.EXPIRE key (Token.expires_in t)] in
  (exists e, TokenClient.cache_token self t w = (Raise e, w)
             /\ (e = RedisConnectionError \/ e = DataError))
  \/ TokenClient.cache_token self t w
     = (Return t,
        log_round_trip (redis.Transaction batch)
          (foldl (apply_command (now w)) (store w) batch) w).
Proof.
  intros key batch. run_cache_token.
  destruct (redis_up w); [| left; eexists; split; [reflexivity | by left]].
  cbn [app]. fold key. fold batch.
  destruct (forallb encodable batch); [by right |].
  left; eexists; split; [reflexivity | by right].
Qed.







(* ===================================================================== *)
(** ** Asking the token endpoint *)
(* ===================================================================== *)



(** C4 (as amended).  When the endpoint answers with a status from 400 to
    599, [fresh_token()] raises the [HTTPError] that carries the response,
    status and body, and sends nothing to the cache: keyspace and cache
    traffic are what they were. *)
Theorem fresh_token_error_status self w r :
  endpoint w (post_of self) = inr r ->
  400 <= requests.status_code r < 600 ->
  let w' := snd (TokenClient.fresh_token self w) in
  fst (TokenClient.fresh_token self w) = Raise (HTTPError r)
  /\ store w' = store w
  /\ redis_log w' = redis_log w.
Proof.
  intros Hpost Hstatus w'. subst w'.
  run_fresh_token. fold (post_of self). rewrite Hpost.
  replace ((400 <=? requests.status_code r) && (requests.status_code r <? 600))
    with true; [done |].
  symmetry. apply andb_true_iff. split; [apply Z.leb_le | apply Z.ltb_lt]; lia.
Qed.

Lemma fresh_token_error_status_witness :
  let w := Sample.world (Sample.response 401) in
  endpoint w (post_of Sample.client) = inr (Sample.response 401)
  /\ fst (TokenClient.fresh_token Sample.client w)
     = Raise (HTTPError (Sample.response 401))
  /\ store (snd (TokenClient.fresh_token Sample.client w)) = store w
  /\ redis_log (snd (TokenClient.fresh_token Sample.client w)) = redis_log w.
Proof.
  intros w.
  assert (400 <= requests.status_code (Sample.response 401) < 600) as Hstatus
    by (cbn; lia).
  split; [reflexivity |].
  exact (fresh_token_error_status Sample.client w (Sample.response 401)
           eq_refl Hstatus).
Defined.

(** C4, as stated, fails for a redirect: a 302 response is not a 2xx
    response, yet no [HTTPError] is raised; its document is read like that
    of a success, the token is returned, and the cache is written. *)
Lemma redirect_status_is_not_an_error :
  let w := Sample.world (Sample.response 302) in
  let w' := snd (TokenClient.fresh_token Sample.client w) in
  endpoint w (post_of Sample.client) = inr (Sample.response 302)
  /\ ~ (200 <= requests.status_code (Sample.response 302) < 300)
  /\ fst (TokenClient.fresh_token Sample.client w) = Return Sample.token
  /\ (forall r, fst (TokenClient.fresh_token Sample.client w) <> Raise (HTTPError r))
  /\ redis_log w' <> redis_log w
  /\ store w' <> store w.
Proof.
  intros w w'.
  assert (fst (TokenClient.fresh_token Sample.client w) = Return Sample.token) as Hret
    by (vm_compute; reflexivity).
  split; [reflexivity | split; [cbn; lia | split; [exact Hret | split; [| split]]]].
  - intros r. rewrite Hret. congruence.
  - vm_compute. congruence.
  - intros Heq.
    assert (store w' !! TokenClient.cache_key Sample.client
            = store w !! TokenClient.cache_key Sample.client) as Hlook by (by rewrite Heq).
    vm_compute in Hlook. discriminate Hlook.
Qed.


(* ===================================================================== *)
(** ** The cache key *)
(* ===================================================================== *)

Lemma append_cons a s t : String a s ++ t = String a (s ++ t).
Proof. reflexivity. Qed.

Lemma append_inv_head s t1 t2 : s ++ t1 = s ++ t2 -> t1 = t2.
Proof.
  induction s as [|a s IH]; [done |].
  rewrite !append_cons. intros [= H]. by apply IH.
Qed.

Lemma list_ascii_of_append s t :
  list_ascii_of_string (s ++ t)
  = (list_ascii_of_string s ++ list_ascii_of_string t)%list.
Proof.
  induction s as [|a s IH]; [done |].
  rewrite append_cons. cbn [list_ascii_of_string app]. by rewrite IH.
Qed.

Lemma append_inv_tail s1 s2 t : s1 ++ t = s2 ++ t -> s1 = s2.
Proof.
  intros H. apply (f_equal list_ascii_of_string) in H.
  rewrite !list_ascii_of_append in H. apply app_inv_tail in H.
  apply (f_equal string_of_list_ascii) in H.
  by rewrite !string_of_list_ascii_of_string in H.
Qed.

(** The first underscore of a key's tail ends the client id when the client
    id has none of its own. *)
Lemma split_at_first_underscore c1 c2 a1 a2 :
  has_underscore c1 = false ->
  has_underscore c2 = false ->
  c1 ++ String "_" a1 = c2 ++ String "_" a2 ->
  c1 = c2 /\ a1 = a2.
Proof.
  revert c2. induction c1 as [|x c1 IH]; intros [|y c2] H1 H2;
    rewrite ?append_cons; cbn [has_underscore] in *.
  - intros [= ->]. done.
  - intros [= <- _]. done.
  - intros [= -> _]. done.
  - apply orb_false_iff in H1 as [_ H1]. apply orb_false_iff in H2 as [_ H2].
    intros [= -> H]. destruct (IH c2 H1 H2 H) as [-> ->]. done.
Qed.

Lemma cache_key_tail self1 self2 :
  TokenClient.cache_key self1 = TokenClient.cache_key self2 ->
  TokenClient.client_id self1 ++ String "_" (TokenClient.audience self1)
  = TokenClient.client_id self2 ++ String "_" (TokenClient.audience self2).
Proof. unfold TokenClient.cache_key. apply append_inv_head. Qed.

(** C3 (as amended).  [cache_key] is the string
    ["oauth_token_cache__" client_id "_" audience], a function of the client
    id and the audience alone: equal pairs give equal keys.  Two pairs that
    differ give different keys when they differ in one component only, or
    when neither client id contains an underscore. *)
Theorem cache_key_determined_and_separating self1 self2 :
  TokenClient.cache_key self1
  = "oauth_token_cache__" ++ TokenClient.client_id self1 ++ "_"
    ++ TokenClient.audience self1
  /\ (TokenClient.client_id self1 = TokenClient.client_id self2 ->
      TokenClient.audience self1 = TokenClient.audience self2 ->
      TokenClient.cache_key self1 = TokenClient.cache_key self2)
  /\ (TokenClient.client_id self1 = TokenClient.client_id self2 ->
      TokenClient.audience self1 <> TokenClient.audience self2 ->
      TokenClient.cache_key self1 <> TokenClient.cache_key self2)
  /\ (TokenClient.audience self1 = TokenClient.audience self2 ->
      TokenClient.client_id self1 <> TokenClient.client_id self2 ->
      TokenClient.cache_key self1 <> TokenClient.cache_key self2)
  /\ (has_underscore (TokenClient.client_id self1) = false ->
      has_underscore (TokenClient.client_id self2) = false ->
      (TokenClient.client_id self1, TokenClient.audience self1)
      <> (TokenClient.client_id self2, TokenClient.audience self2) ->
      TokenClient.cache_key self1 <> TokenClient.cache_key self2).
Proof.
  split; [reflexivity | split; [| split; [| split]]].
  - intros Hc Ha. unfold TokenClient.cache_key. by rewrite Hc, Ha.
  - intros Hc Hne Hkey. apply cache_key_tail in Hkey. rewrite Hc in Hkey.
    apply append_inv_head in Hkey. congruence.
  - intros Ha Hne Hkey. apply cache_key_tail in Hkey. rewrite Ha in Hkey.
    by apply append_inv_tail in Hkey.
  - intros H1 H2 Hne Hkey. apply cache_key_tail in Hkey.
    destruct (split_at_first_underscore _ _ _ _ H1 H2 Hkey) as [Hc Ha].
    apply Hne. by rewrite Hc, Ha.
Qed.

Lemma cache_key_determined_and_separating_witness :
  has_underscore (TokenClient.client_id Sample.client) = false
  /\ has_underscore (TokenClient.client_id Collision.right) = false
  /\ TokenClient.cache_key Sample.client <> TokenClient.cache_key Collision.right.
Proof.
  split; [reflexivity | split; [reflexivity |]].
  apply (cache_key_determined_and_separating Sample.client Collision.right);
    [reflexivity | reflexivity | vm_compute; congruence].
Defined.

(** C3, as stated, fails: two clients that differ in client id and in
    audience share one key, the underscore inside one value doing duty for
    the separator. *)
Lemma cache_key_collision :
  (TokenClient.client_id Collision.left, TokenClient.audience Collision.left)
  <> (TokenClient.client_id Collision.right, TokenClient.audience Collision.right)
  /\ TokenClient.cache_key Collision.left = "oauth_token_cache__a_b_c"
  /\ TokenClient.cache_key Collision.left = TokenClient.cache_key Collision.right.
Proof. split; [vm_compute; congruence | split; reflexivity]. Qed.

(* ===================================================================== *)
(** ** Further properties: the ways [fresh_token] fails *)
(* ===================================================================== *)

Lemma status_passes (status : Z) :
  ~ (400 <= status < 600) -> (400 <=? status) && (status <? 600) = false.
Proof.
  intros H. apply andb_false_iff.
  destruct (Z.leb_spec 400 status); [right; apply Z.ltb_ge; lia | by left].
Qed.

(** What is left of [fresh_token] once a response has passed the status
    check and its document has been decoded. *)
Lemma fresh_token_decoded self w r v :
  endpoint w (post_of self) = inr r ->
  ~ (400 <= requests.status_code r < 600) ->
  requests.json_value r = Some v ->
  TokenClient.fresh_token self w
  = (access_token <- getitem v "access_token" ;;
     expires_in <- getitem v "expires_in" ;;
     token_type <- getitem v "token_type" ;;
     token <- Token.init access_token expires_in token_type
                (PStr (TokenClient.audience self)) ;;
     TokenClient.cache_token self token) (log_request (post_of self) w).
Proof.
  intros Hpost Hstatus Hjson.
  unfold TokenClient.fresh_token at 1, bind at 1 2 3, requests_post,
    raise_for_status, response_json.
  fold (post_of self). rewrite Hpost, (status_passes _ Hstatus), Hjson.
  reflexivity.
Qed.

(** X1.  When the request gets no response (a timeout, a failed
    connection), [fresh_token()] lets that exception through: exactly one
    request has been made, and the cache has seen nothing. *)
Theorem fresh_token_transport_failure self w e :
  endpoint w (post_of self) = inl e ->
  TokenClient.fresh_token self w
  = (Raise (RequestException e), log_request (post_of self) w)
  /\ http_log (snd (TokenClient.fresh_token self w))
     = (http_log w ++ [post_of self])%list
  /\ store (snd (TokenClient.fresh_token self w)) = store w
  /\ redis_log (snd (TokenClient.fresh_token self w)) = redis_log w.
Proof.
  intros Hpost.
  assert (TokenClient.fresh_token self w
          = (Raise (RequestException e), log_request (post_of self) w)) as Hrun.
  { unfold TokenClient.fresh_token, bind, requests_post.
    fold (post_of self). by rewrite Hpost. }
  by rewrite Hrun.
Qed.

Lemma fresh_token_transport_failure_witness :
  let w := endpoint_timing_out (Sample.world (Sample.response 200)) in
  endpoint w (post_of Sample.client) = inl requests.RequestTimeout
  /\ fst (TokenClient.fresh_token Sample.client w)
     = Raise (RequestException requests.RequestTimeout)
  /\ redis_log (snd (TokenClient.fresh_token Sample.client w)) = [].
Proof.
  intros w.
  destruct (fresh_token_transport_failure Sample.client w requests.RequestTimeout
              eq_refl) as (Hrun & _ & _ & Hlog).
  split; [reflexivity | split; [by rewrite Hrun | exact Hlog]].
Defined.

(** X2.  When a response passes the status check (its status is not
    between 400 and 599) but its body is not JSON, [fresh_token()] raises
    the decoding error and the cache has seen nothing. *)
Theorem fresh_token_body_not_json self w r :
  endpoint w (post_of self) = inr r ->
  ~ (400 <= requests.status_code r < 600) ->
  requests.json_value r = None ->
  fst (TokenClient.fresh_token self w) = Raise JSONDecodeError
  /\ store (snd (TokenClient.fresh_token self w)) = store w
  /\ redis_log (snd (TokenClient.fresh_token self w)) = redis_log w.
Proof.
  intros Hpost Hstatus Hjson.
  unfold TokenClient.fresh_token, bind, requests_post, raise_for_status,
    response_json.
  fold (post_of self). by rewrite Hpost, (status_passes _ Hstatus), Hjson.
Qed.

Lemma fresh_token_body_not_json_witness :
  let r := {| requests.status_code := 200; requests.text := "<html>";
              requests.json_value := None |} in
  let w := Sample.world r in
  endpoint w (post_of Sample.client) = inr r
  /\ fst (TokenClient.fresh_token Sample.client w) = Raise JSONDecodeError
  /\ store (snd (TokenClient.fresh_token Sample.client w)) = store w.
Proof.
  intros r w.
  assert (~ (400 <= requests.status_code r < 600)) as Hstatus by (cbn; lia).
  destruct (fresh_token_body_not_json Sample.client w r eq_refl Hstatus eq_refl)
    as (Hraise & Hstore & _).
  split; [reflexivity | split; [exact Hraise | exact Hstore]].
Defined.

(** X3.  When the decoded document is an object that lacks one of
    [access_token], [expires_in], [token_type], [fresh_token()] raises the
    [KeyError] of the first one missing, in that order, and the cache has
    seen nothing. *)
Theorem fresh_token_missing_field self w r d :
  endpoint w (post_of self) = inr r ->
  ~ (400 <= requests.status_code r < 600) ->
  requests.json_value r = Some (PDict d) ->
  assoc d "access_token" = None \/ assoc d "expires_in" = None
  \/ assoc d "token_type" = None ->
  fst (TokenClient.fresh_token self w)
  = Raise (KeyError (match assoc d "access_token", assoc d "expires_in" with
                     | None, _ => "access_token"
                     | Some _, None => "expires_in"
                     | Some _, Some _ => "token_type"
                     end))
  /\ store (snd (TokenClient.fresh_token self w)) = store w
  /\ redis_log (snd (TokenClient.fresh_token self w)) = redis_log w.
Proof.
  intros Hpost Hstatus Hjson Hmissing.
  rewrite (fresh_token_decoded _ _ _ _ Hpost Hstatus Hjson).
  unfold bind, getitem, ret, raise.
  destruct (assoc d "access_token") as [a|]; [| done].
  destruct (assoc d "expires_in") as [ev|]; [| done].
  destruct (assoc d "token_type") as [ty|]; [| done].
  by destruct Hmissing as [? | [? | ?]].
Qed.

Lemma fresh_token_missing_field_witness :
  let d := [("access_token", PStr "abc"); ("token_type", PStr "Bearer")] in
  let r := {| requests.status_code := 200; requests.text := "(token document)";
              requests.json_value := Some (PDict d) |} in
  let w := Sample.world r in
  assoc d "expires_in" = None
  /\ fst (TokenClient.fresh_token Sample.client w) = Raise (KeyError "expires_in")
  /\ redis_log (snd (TokenClient.fresh_token Sample.client w)) = redis_log w.
Proof.
  intros d r w.
  assert (~ (400 <= requests.status_code r < 600)) as Hstatus by (cbn; lia).
  destruct (fresh_token_missing_field Sample.client w r d eq_refl Hstatus eq_refl
              (or_intror (or_introl eq_refl))) as (Hraise & _ & Hlog).
  split; [reflexivity | split; [exact Hraise | exact Hlog]].
Defined.

(** X4.  When the decoded document is not an object at all (a list, a
    string, a number, a boolean, [null]), subscripting it with a field name
    is a [TypeError]: [fresh_token()] raises it and the cache has seen
    nothing. *)
Theorem fresh_token_body_not_object self w r v :
  endpoint w (post_of self) = inr r ->
  ~ (400 <= requests.status_code r < 600) ->
  requests.json_value r = Some v ->
  (forall d, v <> PDict d) ->
  fst (TokenClient.fresh_token self w) = Raise TypeError
  /\ store (snd (TokenClient.fresh_token self w)) = store w
  /\ redis_log (snd (TokenClient.fresh_token self w)) = redis_log w.
Proof.
  intros Hpost Hstatus Hjson Hshape.
  rewrite (fresh_token_decoded _ _ _ _ Hpost Hstatus Hjson).
  unfold bind, getitem, raise.
  destruct v as [| b | z | s | l | d]; try done.
  by destruct (Hshape d).
Qed.

Lemma fresh_token_body_not_object_witness :
  let v := PList [PStr "abc"; PInt 3600; PStr "Bearer"] in
  let r := {| requests.status_code := 200; requests.text := "(a list)";
              requests.json_value := Some v |} in
  let w := Sample.world r in
  (forall d, v <> PDict d)
  /\ fst (TokenClient.fresh_token Sample.client w) = Raise TypeError
  /\ store (snd (TokenClient.fresh_token Sample.client w)) = store w.
Proof.
  intros v r w.
  assert (~ (400 <= requests.status_code r < 600)) as Hstatus by (cbn; lia).
  assert (forall d, v <> PDict d) as Hshape by (intros d; discriminate).
  destruct (fresh_token_body_not_object Sample.client w r v eq_refl Hstatus eq_refl
              Hshape) as (Hraise & Hstore & _).
  split; [exact Hshape | split; [exact Hraise | exact Hstore]].
Defined.

(* ===================================================================== *)
(** ** Further properties: reads *)
(* ===================================================================== *)

(** The outcome of [cached_token] depends on the world only through the
    reachability of the cache and what the key reads as. *)
Lemma cached_token_outcome_ext self w1 w2 :
  redis_up w1 = redis_up w2 ->
  read_hash (now w1) (store w1) (TokenClient.cache_key self)
  = read_hash (now w2) (store w2) (TokenClient.cache_key self) ->
  fst (TokenClient.cached_token self w1) = fst (TokenClient.cached_token self w2).
Proof.
  intros Hup Hread. run_cached_token. rewrite Hup, Hread.
  destruct (redis_up w2); [| done].
  repeat (case_decide || case_match); simplify_eq/=; reflexivity.
Qed.

Lemma cached_token_reads_stored self w a e ty aud old :
  redis_up w = true ->
  read_hash (now w) (store w) (TokenClient.cache_key self)
  = stored_fields a e ty aud ∪ old ->
  fst (TokenClient.cached_token self w)
  = Return (Some (Token.mk (PStr a) e (PStr ty) (PStr aud))).
Proof.
  intros Hup Hread.
  destruct (stored_fields_lookup a e ty aud) as (Ha & Hs & Hty & Haud).
  eapply cached_token_hit; rewrite ?Hread;
    first [done | by apply lookup_union_Some_l | apply py_int_of_str_of_int].
Qed.



(** X6.  [cached_token()] only reads: in every world, hit, miss or error,
    it leaves the keyspace and the clock as they were and makes no request
    to the endpoint, and calling it again right away gives the same
    outcome. *)
Theorem cached_token_read_only self w :
  let w' := snd (TokenClient.cached_token self w) in
  store w' = store w
  /\ now w' = now w
  /\ http_log w' = http_log w
  /\ fst (TokenClient.cached_token self w') = fst (TokenClient.cached_token self w).
Proof.
  intros w'. subst w'.
  destruct (redis_up w) eqn:Hup.
  - rewrite cached_token_world by done. repeat split.
    by apply cached_token_outcome_ext.
  - assert (TokenClient.cached_token self w = (Raise RedisConnectionError, w)) as Hrun
      by (run_cached_token; by rewrite Hup).
    rewrite Hrun. cbn [snd]. by rewrite Hrun.
Qed.

(* ===================================================================== *)
(** ** Further properties: writes followed by reads *)
(* ===================================================================== *)





(** X9.  The last write wins: after [cache_token(t1)] and then
    [cache_token(t2)], with [t2] of positive lifetime, [cached_token()]
    returns [t2], whatever [t1] was. *)
Theorem cache_token_last_write_wins self a1 e1 ty1 aud1 a2 e2 ty2 aud2 w :
  redis_up w = true ->
  0 < e2 ->
  let t1 := Token.mk (PStr a1) e1 (PStr ty1) (PStr aud1) in
  let t2 := Token.mk (PStr a2) e2 (PStr ty2) (PStr aud2) in
  let w1 := snd (TokenClient.cache_token self t1 w) in
  let w2 := snd (TokenClient.cache_token self t2 w1) in
  fst (TokenClient.cached_token self w2) = Return (Some t2).
Proof.
  intros Hup He t1 t2 w1 w2. subst w2 w1.
  rewrite (cache_token_run self t1 w) by (done || apply asdict_encodable).
  cbn [snd].
  rewrite cache_token_run by (done || apply asdict_encodable).
  cbn [snd]. subst t2. rewrite (asdict_encoded a2). cbn [Token.expires_in].
  eapply cached_token_reads_stored; [done |].
  cbn [log_round_trip now store]. rewrite read_hash_insert.
  destruct (Z.ltb_spec (now w) (now w + e2)); [reflexivity | lia].
Qed.

Lemma cache_token_last_write_wins_witness :
  let w := Sample.world (Sample.response 200) in
  let t2 := Token.mk (PStr "xyz") 60 (PStr "MAC") (PStr "svcA") in
  let w1 := snd (TokenClient.cache_token Sample.client Sample.token w) in
  let w2 := snd (TokenClient.cache_token Sample.client t2 w1) in
  redis_up w = true
  /\ fst (TokenClient.cached_token Sample.client w2) = Return (Some t2).
Proof.
  intros w t2 w1 w2. split; [reflexivity |].
  apply (cache_token_last_write_wins Sample.client "abc" 3600 "Bearer" "svcA"
           "xyz" 60 "MAC" "svcA" w); [reflexivity | lia].
Defined.

(** X10.  Caching the same token twice in a row is the same as caching it
    once: for a token of positive lifetime the second [cache_token] leaves
    the keyspace exactly as the first one left it (only the traffic
    grows). *)
Theorem cache_token_twice self a e ty aud w :
  redis_up w = true ->
  0 < e ->
  let t := Token.mk (PStr a) e (PStr ty) (PStr aud) in
  let w1 := snd (TokenClient.cache_token self t w) in
  let w2 := snd (TokenClient.cache_token self t w1) in
  store w2 = store w1
  /\ redis_log w2
     = (redis_log w1
        ++ [redis.Transaction
              [redis.HMSET (TokenClient.cache_key self) (Token.asdict t);
               redis.EXPIRE (TokenClient.cache_key self) e]])%list.
Proof.
  intros Hup He t w1 w2. subst w2 w1.
  rewrite (cache_token_run self t w) by (done || apply asdict_encodable).
  cbn [snd].
  rewrite cache_token_run by (done || apply asdict_encodable).
  subst t. rewrite asdict_encoded.
  cbn [snd log_round_trip now store redis_log Token.expires_in].
  split; [| done].
  rewrite read_hash_insert.
  destruct (Z.ltb_spec (now w) (now w + e)); [| lia].
  by rewrite insert_insert_eq, (assoc_L (∪)), (idemp_L (∪)).
Qed.

Lemma cache_token_twice_witness :
  let w := Sample.world (Sample.response 200) in
  let w1 := snd (TokenClient.cache_token Sample.client Sample.token w) in
  let w2 := snd (TokenClient.cache_token Sample.client Sample.token w1) in
  redis_up w = true /\ store w2 = store w1.
Proof.
  intros w w1 w2. split; [reflexivity |].
  exact (proj1 (cache_token_twice Sample.client "abc" 3600 "Bearer" "svcA" w
                  eq_refl ltac:(lia))).
Defined.

Lemma read_hash_insert_ne t st name other e :
  other <> name ->
  read_hash t (<[name := e]> st) other = read_hash t st other.
Proof.
  intros Hne. unfold read_hash, lookup_live. by rewrite lookup_insert_ne.
Qed.

(** X11.  Clients whose keys differ do not disturb one another:
    [cache_token] of one, whatever the token and whether it succeeds or
    not, leaves the entry of the other untouched, and the other's
    [cached_token()] gives what it gave before. *)
Theorem cache_token_leaves_other_keys self other t w :
  TokenClient.cache_key other <> TokenClient.cache_key self ->
  let w' := snd (TokenClient.cache_token self t w) in
  store w' !! TokenClient.cache_key other = store w !! TokenClient.cache_key other
  /\ fst (TokenClient.cached_token other w') = fst (TokenClient.cached_token other w).
Proof.
  intros Hne w'. subst w'.
  destruct (cache_token_cases self t w) as [(e & -> & _) | ->]; [done |].
  cbn [snd log_round_trip store]. rewrite apply_hmset_expire. split.
  - by rewrite lookup_insert_ne.
  - apply cached_token_outcome_ext; [done |].
    cbn [now store]. by apply read_hash_insert_ne.
Qed.

Lemma cache_token_leaves_other_keys_witness :
  let other := TokenClient.init "client-2" "s3cret"
                 "https://auth.example.org/oauth/token" "svcA" ∅ in
  let w := Sample.world_holding
             {[ "access_token" := "abc"; "expires_in" := "3600";
                "token_type" := "Bearer"; "audience" := "svcA" ]} in
  let w' := snd (TokenClient.cache_token other Sample.spent_token w) in
  TokenClient.cache_key Sample.client <> TokenClient.cache_key other
  /\ fst (TokenClient.cached_token Sample.client w) = Return (Some Sample.token)
  /\ fst (TokenClient.cached_token Sample.client w')
     = fst (TokenClient.cached_token Sample.client w).
Proof.
  intros other w w'.
  assert (TokenClient.cache_key Sample.client <> TokenClient.cache_key other) as Hne
    by (vm_compute; congruence).
  split; [exact Hne | split; [reflexivity |]].
  exact (proj2 (cache_token_leaves_other_keys other Sample.client
                  Sample.spent_token w Hne)).
Defined.

(** X12.  The key is made of the client id and the audience only: a client
    configured with the same two values, whatever its secret, its token URL
    and its timeout, reads the token another one has cached. *)
Theorem cached_token_shared_between_clients self other a e ty aud w :
  TokenClient.client_id other = TokenClient.client_id self ->
  TokenClient.audience other = TokenClient.audience self ->
  redis_up w = true ->
  0 < e ->
  let t := Token.mk (PStr a) e (PStr ty) (PStr aud) in
  fst (TokenClient.cached_token other (snd (TokenClient.cache_token self t w)))
  = Return (Some t).
Proof.
  intros Hid Haud Hup He t.
  assert (TokenClient.cache_key other = TokenClient.cache_key self) as Hkey
    by (unfold TokenClient.cache_key; by rewrite Hid, Haud).
  rewrite cache_token_run by (done || apply asdict_encodable).
  subst t. rewrite asdict_encoded. cbn [snd Token.expires_in].
  eapply cached_token_reads_stored; [done |].
  rewrite Hkey. cbn [log_round_trip now store]. rewrite read_hash_insert.
  destruct (Z.ltb_spec (now w) (now w + e)); [reflexivity | lia].
Qed.

Lemma cached_token_shared_between_clients_witness :
  let other := TokenClient.init "client-1" "another secret"
                 "https://login.example.net/token" "svcA" {[ "timeout" := 30 ]} in
  let w := Sample.world (Sample.response 200) in
  other <> Sample.client
  /\ fst (TokenClient.cached_token other
            (snd (TokenClient.cache_token Sample.client Sample.token w)))
     = Return (Some Sample.token).
Proof.
  intros other w. split; [vm_compute; congruence |].
  apply (cached_token_shared_between_clients Sample.client other
           "abc" 3600 "Bearer" "svcA" w); [reflexivity .. | lia].
Defined.

(* ===================================================================== *)
(** ** Further properties: [fresh_token] and the cache *)
(* ===================================================================== *)


(** What [fresh_token] comes down to on a response that passes the status
    check and whose document holds the three fields. *)
Lemma fresh_token_run self w r d av ev e tyv :
  endpoint w (post_of self) = inr r ->
  ~ (400 <= requests.status_code r < 600) ->
  requests.json_value r = Some (PDict d) ->
  assoc d "access_token" = Some av ->
  assoc d "expires_in" = Some ev ->
  py_int ev = Some e ->
  assoc d "token_type" = Some tyv ->
  TokenClient.fresh_token self w
  = TokenClient.cache_token self
      (Token.mk av e tyv (PStr (TokenClient.audience self)))
      (log_request (post_of self) w).
Proof.
  intros Hpost Hstatus Hjson Ha Hev He Hty.
  rewrite (fresh_token_decoded _ _ _ _ Hpost Hstatus Hjson).
  unfold bind at 1 2 3 4, getitem, Token.init, ret.
  by rewrite Ha, Hev, Hty, He.
Qed.




(** X15.  When the endpoint has issued a token but the cache cannot be
    reached, [fresh_token()] raises the cache's connection error: the
    request has been made, nothing is cached, and the caller does not get
    the token. *)
Theorem fresh_token_token_lost_without_cache self w r d av ev e tyv :
  endpoint w (post_of self) = inr r ->
  ~ (400 <= requests.status_code r < 600) ->
  requests.json_value r = Some (PDict d) ->
  assoc d "access_token" = Some av ->
  assoc d "expires_in" = Some ev ->
  py_int ev = Some e ->
  assoc d "token_type" = Some tyv ->
  redis_up w = false ->
  fst (TokenClient.fresh_token self w) = Raise RedisConnectionError
  /\ http_log (snd (TokenClient.fresh_token self w))
     = (http_log w ++ [post_of self])%list
  /\ store (snd (TokenClient.fresh_token self w)) = store w
  /\ redis_log (snd (TokenClient.fresh_token self w)) = redis_log w.
Proof.
  intros Hpost Hstatus Hjson Ha Hev He Hty Hdown.
  rewrite (fresh_token_run _ _ _ _ _ _ _ _ Hpost Hstatus Hjson Ha Hev He Hty).
  run_cache_token. cbn [log_request redis_up]. by rewrite Hdown.
Qed.

Lemma fresh_token_token_lost_without_cache_witness :
  let w := cache_down (Sample.world (Sample.response 200)) in
  redis_up w = false
  /\ fst (TokenClient.fresh_token Sample.client w) = Raise RedisConnectionError
  /\ http_log (snd (TokenClient.fresh_token Sample.client w))
     = [post_of Sample.client].
Proof.
  intros w.
  assert (~ (400 <= requests.status_code (Sample.response 200) < 600)) as Hstatus
    by (cbn; lia).
  destruct (fresh_token_token_lost_without_cache Sample.client w (Sample.response 200)
              [("access_token", PStr "abc"); ("expires_in", PInt 3600);
               ("token_type", PStr "Bearer")]
              (PStr "abc") (PInt 3600) 3600 (PStr "Bearer")
              eq_refl Hstatus eq_refl eq_refl eq_refl eq_refl eq_refl eq_refl)
    as (Hraise & Hlog & _).
  split; [reflexivity | split; [exact Hraise | exact Hlog]].
Defined.


